(** * Decoding engine of RNN_Seq2Seq: greedy search, beam search, scoring

    A shallow embedding of [module/generate.py] (class [Generator]) and
    [module/test.py] (class [Tester]).

    - Token ids are [Z]; a tensor of shape [(1, L)] is the [list Z] of its
      only row, a tensor of shape [(batch, max_len)] a list of rows.
    - Python floats are kept abstract behind the interface [FloatOps]; the
      torch functions the search calls ([argmax], [topk], [log_softmax])
      belong to the same interface.
    - The encoder/decoder model, the tokenizer and the metric module are
      collaborators: section variables.
    - A Python call either returns, raises, or (for [PriorityQueue.get] on an
      empty queue) never returns: type [outcome]. *)

From Stdlib Require Import ZArith Lia String Ascii QArith.
From stdpp Require Import base list.

Local Open Scope Z_scope.

(** ** Outcomes of a Python call *)

Inductive exn : Set :=
| TypeError | ValueError | IndexError | UnboundLocalError
| AttributeError | EOFError | RuntimeError | ZeroDivisionError.

Inductive outcome (A : Type) : Type :=
| Ok (a : A)          (* the call returns [a] *)
| Raised (e : exn)    (* the call raises *)
| Blocked.            (* the call never returns *)

Arguments Ok {A} a.
Arguments Raised {A} e.
Arguments Blocked {A}.

#[global] Instance outcome_ret : MRet outcome := fun A a => Ok a.
#[global] Instance outcome_bind : MBind outcome := fun A B k m =>
  match m with
  | Ok a => k a
  | Raised e => Raised e
  | Blocked => Blocked
  end.

(** [l[i]] on a Python list or along a tensor dimension. *)
Definition index {A} (l : list A) (i : nat) : outcome A :=
  match l !! i with
  | Some a => Ok a
  | None => Raised IndexError
  end.

(** ** Floating point and torch primitives, kept abstract *)

Class FloatOps (F : Type) : Type := {
  fzero : F;                          (* the literal 0.0 *)
  fhalf : F;                          (* the literal 0.5 *)
  f1_2 : F;                           (* the literal 1.2 *)
  of_int : Z -> F;                    (* an int used where a float is *)
  truthy : F -> bool;                 (* bool(x): x is not zero *)
  int_truediv : Z -> Z -> F;          (* a / b on ints *)
  fpow : F -> F -> F;                 (* x ** y *)
  fdiv : F -> F -> F;                 (* x / y *)
  fmul : F -> F -> F;                 (* x * y *)
  fadd : F -> F -> F;                 (* x + y *)
  fneg : F -> F;                      (* -x *)
  flt : F -> F -> bool;               (* x < y *)
  argmax : list F -> Z;               (* out.argmax(-1) *)
  topk : list F -> nat -> list F * list Z;   (* torch.topk(out, k) *)
  log_softmax : list F -> list F      (* F.log_softmax(logits, dim=-1) *)
}.

(** The comparison is a strict weak order (true of floats other than NaN). *)
Class FloatOrder (F : Type) `{FloatOps F} : Prop := {
  flt_asym : forall a b, flt a b = true -> flt b a = false;
  flt_negtrans : forall a b c, flt a b = false -> flt b c = false -> flt a c = false
}.

(** The length penalty at the default arguments is not zero: it is a
    positive power of [(length + 5) / 6] with [length >= 0]. *)
Class LenPenaltyNonzero (F : Type) `{FloatOps F} : Prop :=
  len_penalty_nonzero : forall n : Z, 0 <= n -> truthy (fpow (int_truediv (n + 5) 6) f1_2) = true.

(** ** Python values produced by [tolist] *)

#[warnings="-register-all"]
Inductive pyobj : Type :=
| PInt (z : Z)
| PList (l : list pyobj).

(** Python [==] on ints and lists. *)
Fixpoint py_eqb (a b : pyobj) {struct a} : bool :=
  match a, b with
  | PInt x, PInt y => Z.eqb x y
  | PList l, PList m =>
      (fix all2 (l : list pyobj) (m : list pyobj) {struct l} : bool :=
         match l, m with
         | [], [] => true
         | x :: l', y :: m' => py_eqb x y && all2 l' m'
         | _, _ => false
         end) l m
  | _, _ => false
  end.

(** [itertools.groupby] without a key function: maximal runs of
    consecutive equal elements, each with its key. *)
Fixpoint groupby (l : list pyobj) : list (pyobj * list pyobj) :=
  match l with
  | [] => []
  | x :: r =>
      match groupby r with
      | (k, g) :: gs => if py_eqb x k then (x, x :: g) :: gs else (x, [x]) :: (k, g) :: gs
      | [] => [(x, [x])]
      end
  end.

(** [max(xs)] on a list of ints; [ValueError] on the empty list. *)
Definition py_max (xs : list Z) : outcome Z :=
  match xs with
  | [] => Raised ValueError
  | x :: r => Ok (foldl Z.max x r)
  end.

(** [sum(1 for token in group if token != pad_id)]. *)
Definition count_non_pad (pad_id : Z) (group : list pyobj) : Z :=
  Z.of_nat (length (filter (fun token => py_eqb token (PInt pad_id) = false) group)).

(** The [repeat] of [get_score], from the list [node.pred.tolist()]. *)
Definition repeat_of (pad_id : Z) (pred_list : list pyobj) : outcome Z :=
  py_max (map (fun kg => count_non_pad pad_id (snd kg)) (groupby pred_list)).

(** [tensor.tolist()] for a tensor of shape [(L,)] and of shape [(1, L)]. *)
Definition tolist1 (row : list Z) : list pyobj := map PInt row.
Definition tolist2 (row : list Z) : list pyobj := [PList (map PInt row)].

(** ** Configuration and hypotheses (class [Generator]) *)

(** The attributes [Generator.__init__] sets. [max_len] and [beam_size] are
    the constants 512 and 4 there; they stay fields because the search
    methods read them from [self]. *)
Record Config : Set := mkConfig {
  max_len : nat;
  beam_size : nat;
  bos_id : Z;
  eos_id : Z;
  pad_id : Z
}.

(** [Generator.__init__] for ids taken from [config]. *)
Definition generator_init (bos eos pad : Z) : Config :=
  {| max_len := 512; beam_size := 4; bos_id := bos; eos_id := eos; pad_id := pad |}.

(** [Node = namedtuple('Node', ['prev_node', 'pred', 'log_prob', 'hiddens',
    'length'])]. [pred] is the row of a tensor of shape [(1, L)]: every node
    the program builds has that shape. *)
Module Node.
#[warnings="-register-all"]
Inductive t (F H : Type) : Type :=
| mk (prev_node : option (t F H)) (pred : list Z) (log_prob : F) (hiddens : H) (length : Z).
Arguments mk {F H} prev_node pred log_prob hiddens length.

Definition prev_node {F H} (n : t F H) : option (t F H) := let (p, _, _, _, _) := n in p.
Definition pred {F H} (n : t F H) : list Z := let (_, p, _, _, _) := n in p.
Definition log_prob {F H} (n : t F H) : F := let (_, _, p, _, _) := n in p.
Definition hiddens {F H} (n : t F H) : H := let (_, _, _, h, _) := n in h.
Definition length {F H} (n : t F H) : Z := let (_, _, _, _, l) := n in l.
End Node.

Section Scoring.
Context {F H : Type} `{FloatOps F}.
Variable self : Config.

(** [Generator.get_score]. Both divisions raise on a zero divisor. *)
Definition get_score (node : Node.t F H) (max_repeat min_length : Z) (alpha : F)
  : outcome F :=
  if negb (truthy (Node.log_prob node)) then
    Ok (Node.log_prob node)
  else
    repeat ← repeat_of (pad_id self) (tolist2 (Node.pred node));
    let repeat_penalty := if repeat >? max_repeat then fhalf else of_int 1 in
    if 1 + min_length =? 0 then Raised ZeroDivisionError else
    let len_penalty :=
      fpow (int_truediv (Node.length node + min_length) (1 + min_length)) alpha in
    if negb (truthy len_penalty) then Raised ZeroDivisionError else
    let score := fdiv (Node.log_prob node) len_penalty in
    let score := fmul score repeat_penalty in
    Ok score.

(** [self.get_score(node)], the keyword arguments at their defaults. *)
Definition get_score_default (node : Node.t F H) : outcome F :=
  get_score node 5 5 f1_2.
End Scoring.

(** ** The frontier: [queue.PriorityQueue] of [(score, node)] tuples

    The queue is the list of its entries in the order [get] returns them,
    by ascending score. The heap orders the tuples themselves: when two
    entries have the same score it goes on to compare their nodes, which
    raises for two different hypotheses. That path is not modelled. The
    list is the queue exactly when the scores of its entries are pairwise
    different, and for the copies of one entry that [init_nodes] puts (the
    comparison of a node with itself stops at their identity); the
    statements below keep to these queues. [get] on an empty queue waits
    for a [put] that never comes. *)
Definition entry (F N : Type) : Type := F * N.
Definition frontier (F N : Type) : Type := list (entry F N).

Section Frontier.
Context {F N : Type} `{FloatOps F}.
#[local] Abbreviation entry := (entry F N).
#[local] Abbreviation frontier := (frontier F N).

(** [nodes.put(e)]. *)
Fixpoint put (e : entry) (q : frontier) : frontier :=
  match q with
  | [] => [e]
  | x :: r => if flt (fst e) (fst x) then e :: x :: r else x :: put e r
  end.

(** [nodes.get()]. *)
Definition get (q : frontier) : outcome (entry * frontier) :=
  match q with
  | [] => Blocked
  | x :: r => Ok (x, r)
  end.

(** The loop that fills [curr_nodes]:
    [while True: try: curr_nodes.append(nodes.get()) except: continue;
     if len(curr_nodes) == self.beam_size: break]. Every round takes one
    entry off the queue, so the recursion is on the queue. *)
Fixpoint pop_loop (B : nat) (q : frontier) (curr_nodes : list entry)
  : outcome (list entry * frontier) :=
  match q with
  | [] => Blocked
  | x :: r =>
      let curr_nodes := curr_nodes ++ [x] in
      if (length curr_nodes =? B)%nat then Ok (curr_nodes, r)
      else pop_loop B r curr_nodes
  end.

(** [sorted(end_nodes, key=operator.itemgetter(0), reverse=True)]: a
    stable sort by descending score. *)
Fixpoint insert_desc (e : entry) (l : list entry) : list entry :=
  match l with
  | [] => [e]
  | x :: r => if flt (fst e) (fst x) then x :: insert_desc e r else e :: x :: r
  end.

Definition sorted_reverse (l : list entry) : list entry :=
  foldr insert_desc [] l.
End Frontier.

(** ** Beam search and greedy search *)

Section Search.
Context {F H Text : Type} `{FloatOps F}.
Variable self : Config.
(** [self.model.decoder(token, hiddens)] on one item: logits and the next state. *)
Variable decoder : Z -> H -> list F * H.
(** [self.tokenizer.decode] on a batch of id lists. *)
Variable tokenizer_decode : list (list Z) -> Text.

#[local] Abbreviation node := (Node.t F H).
#[local] Abbreviation entry := (entry F node).
#[local] Abbreviation frontier := (frontier F node).

(** The node [init_nodes] builds. *)
Definition start_node (hiddens : H) : node :=
  Node.mk None [bos_id self] fzero hiddens 0.

(** [Generator.init_nodes]: the queue and the empty list of finished
    entries (the [Node] class it also returns is the type [Node.t]). *)
Definition init_nodes (hiddens : H) : frontier * list (entry) :=
  let nodes := [] in
  let start_node := start_node hiddens in
  let nodes := foldl (fun nodes _ => put (of_int 0, start_node) nodes) nodes
                     (seq 0 (beam_size self)) in
  (nodes, []).

(** [self.get_nodes(hiddens)]: class [Generator] has no attribute of that
    name. The method that builds the queue is [init_nodes], which nothing
    calls; the lookup raises. *)
Definition get_nodes (hiddens : H) : outcome (frontier * list (entry)) :=
  Raised AttributeError.

(** [curr_node.pred[:, -1]] followed by [.item()]. *)
Definition last_token (pred : list Z) : outcome Z :=
  match last pred with
  | Some tok => Ok tok
  | None => Raised IndexError
  end.

(** The loop [for k in range(self.beam_size)] of [beam_search]. *)
Fixpoint expand (curr_node : node) (hidden : H) (preds : list Z) (log_probs : list F)
    (ks : list nat) (nodes : frontier) : outcome (frontier) :=
  match ks with
  | [] => Ok nodes
  | k :: ks =>
      pred ← index preds k;
      log_prob ← index log_probs k;
      let pred := Node.pred curr_node ++ [pred] in
      let next_node :=
        Node.mk (Some curr_node) pred (fadd (Node.log_prob curr_node) log_prob)
                hidden (Node.length curr_node + 1) in
      next_score ← get_score_default self next_node;
      expand curr_node hidden preds log_probs ks (put (next_score, next_node) nodes)
  end.

(** The loop [for curr_score, curr_node in curr_nodes] at step [t], with
    its [continue] and its [break]. *)
Fixpoint process (t : nat) (curr_nodes : list (entry))
    (nodes : frontier) (end_nodes : list (entry))
    : outcome (frontier * list (entry)) :=
  match curr_nodes with
  | [] => Ok (nodes, end_nodes)
  | (curr_score, curr_node) :: rest =>
      last_token ← last_token (Node.pred curr_node);
      if last_token =? eos_id self then
        process t rest nodes (end_nodes ++ [(curr_score, curr_node)])
      else
        let '(out, hidden) := decoder last_token (Node.hiddens curr_node) in
        let '(logits, preds) := topk out (beam_size self) in
        let log_probs := map fneg (log_softmax logits) in
        nodes ← expand curr_node hidden preds log_probs (seq 0 (beam_size self)) nodes;
        if (t =? 0)%nat then Ok (nodes, end_nodes)
        else process t rest nodes end_nodes
  end.

(** The loop [for t in range(self.max_len)]. *)
Fixpoint steps (ts : list nat) (nodes : frontier)
    (end_nodes : list (entry))
    : outcome (frontier * list (entry)) :=
  match ts with
  | [] => Ok (nodes, end_nodes)
  | t :: ts =>
      '(curr_nodes, nodes) ← pop_loop (beam_size self) nodes [];
      '(nodes, end_nodes) ← process t curr_nodes nodes end_nodes;
      steps ts nodes end_nodes
  end.

(** [top_node.pred.squeeze()[1:]] then [.tolist()]: a row of one token
    squeezes to a scalar, which cannot be sliced. *)
Definition squeeze_tail (pred : list Z) : outcome (list Z) :=
  match pred with
  | [_] => Raised IndexError
  | _ => Ok (drop 1 pred)
  end.

(** The choice of [top_node] after the step loop. *)
Definition select_top (nodes : frontier) (end_nodes : list (entry))
  : outcome node :=
  if (length end_nodes =? 0)%nat then
    '(_, top_node, _) ← get nodes; Ok top_node
  else
    '(_, top_node) ← index (sorted_reverse end_nodes) 0; Ok top_node.

(** The body of [for idx in range(batch_size)] of [beam_search], for the
    decoder state [hiddens] of one item. *)
Definition beam_search_item (hiddens : H) : outcome (list Z) :=
  '(nodes, end_nodes) ← get_nodes hiddens;
  '(nodes, end_nodes) ← steps (seq 0 (max_len self)) nodes end_nodes;
  top_node ← select_top nodes end_nodes;
  squeeze_tail (Node.pred top_node).

(** The body of [for idx in range(batch_size)] of [greedy_search]: the
    loop [for t in range(1, self.max_len)] on the buffer [pred], which
    also counts the calls of the decoder. *)
Fixpoint greedy_loop (ts : list nat) (dec_input : Z) (hiddens : H) (pred : list Z)
    (calls : nat) : list Z * nat :=
  match ts with
  | [] => (pred, calls)
  | t :: ts =>
      let '(out, hiddens) := decoder dec_input hiddens in
      let calls := S calls in
      let pred_token := argmax out in
      let pred := <[t := pred_token]> pred in
      let dec_input := pred_token in
      if pred_token =? eos_id self then (pred, calls)
      else greedy_loop ts dec_input hiddens pred calls
  end.

(** The buffer [pred] when the loop is left, and the decoder calls made. *)
Definition greedy_buffer (hiddens : H) : list Z * nat :=
  let dec_input := bos_id self in
  let pred := replicate (max_len self) (pad_id self) in
  greedy_loop (seq 1 (max_len self - 1)) dec_input hiddens pred 0.

(** [pred[1:].tolist()], what [greedy_search] appends to [batch_pred]. *)
Definition greedy_search_item (hiddens : H) : list Z :=
  drop 1 (fst (greedy_buffer hiddens)).

(** [Generator.greedy_search]. *)
Definition greedy_search (batch_hiddens : list H) : Text :=
  tokenizer_decode (map greedy_search_item batch_hiddens).

(** [Generator.beam_search], from the per-item decoder states the encoder
    output is sliced into. *)
Definition beam_search (batch_hiddens : list H) : outcome Text :=
  batch_pred ← mapM beam_search_item batch_hiddens;
  Ok (tokenizer_decode batch_pred).
End Search.

(** ** The interactive loop *)

Section Inference.
Local Open Scope string_scope.

Definition newline : string := String "010" EmptyString.
Definition dquote : string := String "034" EmptyString.

(** [str.lower()]. Only the letters A-Z are mapped: no other character
    lowers to one of q, u, i, t, which is all the loop looks at. *)
Definition lower_ascii (c : ascii) : ascii :=
  let n := nat_of_ascii c in
  if ((65 <=? n) && (n <=? 90))%nat then ascii_of_nat (n + 32) else c.

Fixpoint lower (s : string) : string :=
  match s with
  | EmptyString => EmptyString
  | String c r => String (lower_ascii c) (lower r)
  end.

(** [Generator.generate(self, input_seq, search_method)], called with the
    positional arguments [args]. Its first statement,
    [input_tensor = self.tokenizer.encode(input_tensor).ids], reads the
    local [input_tensor] before it is assigned. *)
Definition generate (args : list string) : outcome string :=
  match args with
  | [input_seq; search_method] => Raised UnboundLocalError
  | _ => Raised TypeError
  end.

Definition prompt : string := newline ++ "User Input Sequence >> ".
Definition out_label : string := "Model Out Sequence >> ".
Definition farewell : string := newline ++ "--- Inference Process has terminated! ---".

(** The [while True] loop of [inference] over the lines still to come on
    standard input; [stdout] collects what is written. *)
Fixpoint inference_loop (stdin : list string) (stdout : list string)
  : list string * outcome unit :=
  match stdin with
  | [] => ((stdout ++ [prompt])%list, Raised EOFError)
  | line :: stdin =>
      let stdout := (stdout ++ [prompt])%list in
      let input_seq := lower line in
      if String.eqb input_seq "quit" then ((stdout ++ [farewell])%list, Ok tt)
      else
        match generate [input_seq] with
        | Ok output_seq => inference_loop stdin (stdout ++ [(out_label ++ output_seq)%string])%list
        | Raised e => (stdout, Raised e)
        | Blocked => (stdout, Blocked)
        end
  end.

(** [Generator.inference]. *)
Definition inference (stdin : list string) : list string * outcome unit :=
  inference_loop stdin
    ["--- Inference Process Started! ---";
     "[ Type " ++ dquote ++ "quit" ++ dquote ++ " on user input to stop the Process ]"].
End Inference.

(** ** The batch test path (class [Tester]) *)

Section Tester.
Context {F H : Type} `{FloatOps F}.
(** [self.task], [self.bos_id], [self.pad_id], [self.max_len]. *)
Variables (task : string) (t_bos_id t_pad_id : Z) (t_max_len : nat).
(** [self.model.encoder] and [self.model.decoder] on a batch: one row of
    logits per item. *)
Variable encoder : list (list Z) -> H.
Variable decoder_batch : list Z -> H -> list (list F) * H.
(** [self.metric_module.compute(predictions=.., references=..)[key]]. *)
Variable metric_compute : list string -> list (list string) -> string -> F.

(** [pred[:, t] = pred_token]: one token per row, a single token is
    broadcast, any other shape is refused. *)
Definition set_column (t : nat) (pred_token : list Z) (pred : list (list Z))
  : outcome (list (list Z)) :=
  if (length pred_token =? length pred)%nat then
    Ok (zip_with (fun row tok => <[t := tok]> row) pred pred_token)
  else
    match pred_token with
    | [tok] => Ok (map (fun row => <[t := tok]> row) pred)
    | _ => Raised RuntimeError
    end.

(** The loop [for t in range(1, self.max_len)] of [predict], which also
    counts the calls of the decoder. *)
Fixpoint predict_loop (ts : list nat) (pred_token : list Z) (hiddens : H)
    (pred : list (list Z)) (calls : nat) : outcome (list (list Z) * nat) :=
  match ts with
  | [] => Ok (pred, calls)
  | t :: ts =>
      let '(out, hiddens) := decoder_batch pred_token hiddens in
      let calls := S calls in
      let pred_token := map argmax out in
      pred ← set_column t pred_token pred;
      predict_loop ts pred_token hiddens pred calls
  end.

(** [Tester.predict]: the tensor [pred] as its list of rows, and the
    number of decoder calls. *)
Definition predict (x : list (list Z)) : outcome (list (list Z) * nat) :=
  let batch_size := length x in
  let pred := replicate batch_size (replicate t_max_len t_pad_id) in
  pred ← (if (t_max_len =? 0)%nat then Raised IndexError
          else Ok (map (fun row => <[0%nat := t_bos_id]> row) pred));
  let pred_token := replicate batch_size t_bos_id in
  let hiddens := encoder x in
  predict_loop (seq 1 (t_max_len - 1)) pred_token hiddens pred 0.

(** A call of the metric module: its predictions and its references. *)
Definition metric_call : Type := list string * list (list string).

(** [Tester.evaluate]: the score and the calls of the metric module. *)
Definition evaluate (pred label : list string) : F * list metric_call :=
  if forallb (fun elem => String.eqb elem EmptyString) pred then
    (fzero, [])
  else
    let references := map (fun l => [l]) label in
    if String.eqb task "translation" then
      let score := metric_compute pred references "bleu" in
      (fmul score (of_int 100), [(pred, references)])
    else
      let score := metric_compute pred references "rouge2" in
      (fmul score (of_int 100), [(pred, references)]).
End Tester.

(** ** Vocabulary of the statements *)

(** The run-length the spec asks [get_score] for, in the spec's words: the
    maximum run-length of consecutive identical non-pad tokens anywhere in
    [tokenSoFar]. [run] is the length of the run of [prev] that ends just
    before the tokens still to scan. *)
Fixpoint spec_runs (pad : Z) (prev : Z) (run best : Z) (toks : list Z) : Z :=
  match toks with
  | [] => best
  | x :: r =>
      let run := if x =? pad then 0 else if x =? prev then run + 1 else 1 in
      spec_runs pad x run (Z.max best run) r
  end.

Definition spec_repeat (pad : Z) (tokenSoFar : list Z) : Z :=
  match tokenSoFar with
  | [] => 0
  | x :: r => let run := if x =? pad then 0 else 1 in spec_runs pad x run run r
  end.

(** A frontier whose scores are pairwise different, in the order [get]
    serves it: every entry has a strictly smaller score than those after it. *)
Definition strictly_ascending {F N : Type} `{FloatOps F} (q : list (entry F N)) : Prop :=
  forall i j x y, (i < j)%nat -> q !! i = Some x -> q !! j = Some y ->
    flt (fst x) (fst y) = true.

Section Chain.
Context {F H : Type} `{FloatOps F}.
Variable decoder : Z -> H -> list F * H.

(** The tokens the decoder's argmax yields in [n] steps from the token
    [tok] and the state [h], each token fed back as the next input. *)
Fixpoint chain (n : nat) (tok : Z) (h : H) : list Z :=
  match n with
  | O => []
  | S n =>
      let '(out, h) := decoder tok h in
      let g := argmax out in
      g :: chain n g h
  end.
End Chain.

(** The tokens of [l] up to and including the first [eos]. *)
Fixpoint upto_eos (eos : Z) (l : list Z) : list Z :=
  match l with
  | [] => []
  | x :: r => if x =? eos then [x] else x :: upto_eos eos r
  end.

(** No pad token before the first end-of-sequence token, if one is present. *)
Definition no_pad_before_eos (pad eos : Z) (out : list Z) : Prop :=
  forall i j, (i < j)%nat -> out !! j = Some eos ->
    (forall k, (k < j)%nat -> out !! k <> Some eos) ->
    out !! i <> Some pad.

(** A row of the tensor [predict] returns: [t_max_len] long, the start
    token first. *)
Definition row_ok (t_bos_id : Z) (t_max_len : nat) (row : list Z) : Prop :=
  length row = t_max_len /\ row !! 0%nat = Some t_bos_id.

(** The longest prefix without a pad token. *)
Fixpoint non_pad_prefix (pad : Z) (out : list Z) : list Z :=
  match out with
  | [] => []
  | x :: r => if x =? pad then [] else x :: non_pad_prefix pad r
  end.

(** ** An instance to run the definitions: exact rationals

    Comparison, [argmax] and [topk] are the real ones (the first of equal
    values wins); exponentiation and log-softmax, which are not rational,
    are replaced by stand-ins. *)
Module Exact.
Definition ltb (a b : Q) : bool := negb (Qle_bool b a).

Fixpoint argmax_from (l : list Q) (i : Z) (best : Q) (besti : Z) : Z :=
  match l with
  | [] => besti
  | x :: r => if ltb best x then argmax_from r (i + 1) x i
              else argmax_from r (i + 1) best besti
  end.

Definition first_argmax (l : list Q) : Z :=
  match l with
  | [] => 0
  | x :: r => argmax_from r 1 x 0
  end.

Fixpoint insert_stable (e : Q * Z) (l : list (Q * Z)) : list (Q * Z) :=
  match l with
  | [] => [e]
  | x :: r => if ltb (fst e) (fst x) then x :: insert_stable e r else e :: x :: r
  end.

Definition stable_topk (l : list Q) (k : nat) : list Q * list Z :=
  let sorted := foldr insert_stable [] (zip l (map Z.of_nat (seq 0 (length l)))) in
  (map fst (take k sorted), map snd (take k sorted)).

Definition maximum (l : list Q) : Q :=
  match l with
  | [] => 0%Q
  | x :: r => foldl (fun m y => if ltb m y then y else m) x r
  end.

#[global] Instance ops : FloatOps Q := {|
  fzero := 0%Q;
  fhalf := (1 # 2)%Q;
  f1_2 := (6 # 5)%Q;
  of_int := inject_Z;
  truthy := fun x => negb (Qeq_bool x 0%Q);
  int_truediv := fun a b => (inject_Z a / inject_Z b)%Q;
  fpow := fun x _ => x;
  fdiv := Qdiv;
  fmul := Qmult;
  fadd := Qplus;
  fneg := Qopp;
  flt := ltb;
  argmax := first_argmax;
  topk := stable_topk;
  log_softmax := fun l => map (fun x => (x - maximum l)%Q) l
|}.
End Exact.

(** ** Scripted decoders over the vocabulary bos=0, eos=1, pad=2, a=3, b=4

    The decoder state is the number of steps made; at step [i] the logits
    put the [i]-th token of the script highest, and [default] once the
    script is over. *)
Module Scenario.
Definition one_hot (tok : Z) : list Q :=
  map (fun i => if i =? tok then 1%Q else 0%Q) [0; 1; 2; 3; 4].

Definition scripted (script : list Z) (default : Z) (tok : Z) (step : nat)
  : list Q * nat :=
  (one_hot (nth step script default), S step).

(** The vocabulary's setting of [Generator]. *)
Definition vocab : Config := generator_init 0 1 2.

(** Token a, then eos, then b for ever. *)
Definition a_then_eos : Z -> nat -> list Q * nat := scripted [3; 1] 4.

(** The pad token, then eos. *)
Definition pad_then_eos : Z -> nat -> list Q * nat := scripted [2; 1] 4.

(** [Generator] with a beam of one. *)
Definition beam1 : Config :=
  {| max_len := 512; beam_size := 1; bos_id := 0; eos_id := 1; pad_id := 2 |}.

(** A batched decoder whose argmax is eos for every item at every step. *)
Definition batch_always_eos (toks : list Z) (step : nat) : list (list Q) * nat :=
  (map (fun _ => one_hot 1) toks, S step).
End Scenario.

(** ** The test run (class [Tester])

    A batch of the data loader carries the input ids ['x'] and the label
    ids ['y'], a row per item. *)
Record Batch : Set := mkBatch {
  batch_x : list (list Z);
  batch_y : list (list Z)
}.

Section TesterRun.
Context {F H : Type} `{FloatOps F}.
(** [self.task], [self.model_type] and the ids and length of [Tester]. *)
Variables (task model_type : string) (t_bos_id t_pad_id : Z) (t_max_len : nat).
Variable encoder : list (list Z) -> H.
Variable decoder_batch : list Z -> H -> list (list F) * H.
Variable metric_compute : list string -> list (list string) -> string -> F.
(** [self.tokenizer.decode] on one list of ids. *)
Variable tokenizer_decode_ids : list Z -> string.
(** [str.upper()], and the text of [round(v, 2)] in an f-string. *)
Variable str_upper : string -> string.
Variable format_round2 : F -> string.

(** [Tester.tokenize]. *)
Definition tokenize (batch : list (list Z)) : list string :=
  map tokenizer_decode_ids batch.

(** The loop [for batch in self.dataloader] of [test]: the running score
    and the calls of the metric module so far. *)
Fixpoint test_loop (dataloader : list Batch) (score : F) (calls : list metric_call)
  : outcome (F * list metric_call) :=
  match dataloader with
  | [] => Ok (score, calls)
  | batch :: dataloader =>
      let x := batch_x batch in
      let y := tokenize (batch_y batch) in
      '(pred, _) ← predict t_bos_id t_pad_id t_max_len encoder decoder_batch x;
      let pred := tokenize pred in
      let '(batch_score, batch_calls) := evaluate task metric_compute pred y in
      test_loop dataloader (fadd score batch_score) (calls ++ batch_calls)
  end.

(** [Tester.test]: the text printed and the calls of the metric module.
    [len(self.dataloader)] is the number of batches; dividing the score by
    it raises when there is none. *)
Definition test (dataloader : list Batch) : outcome (string * list metric_call) :=
  let score := fzero in
  '(score, calls) ← test_loop dataloader score [];
  let txt := ("TEST Result on " ++ str_upper task ++ " with "
                ++ str_upper model_type ++ " model")%string in
  if (length dataloader =? 0)%nat then Raised ZeroDivisionError
  else
    let txt := (txt ++ newline ++ "-- Score: "
                  ++ format_round2 (fdiv score (of_int (Z.of_nat (length dataloader))))
                  ++ newline)%string in
    Ok (txt, calls).

(** A call of the metric module made for a batch of the data loader: its
    references are the batch's decoded labels, one reference per item, and
    its predictions are not all empty. *)
Definition call_of (dataloader : list Batch) (c : metric_call) : Prop :=
  (exists batch, batch ∈ dataloader
     /\ snd c = map (fun l => [l]) (tokenize (batch_y batch)))
  /\ exists elem, elem ∈ fst c /\ elem <> EmptyString.
End TesterRun.

(** ** Vocabulary of the further statements *)

Section BatchChain.
Context {F H : Type} `{FloatOps F}.
Variable decoder_batch : list Z -> H -> list (list F) * H.

(** The token columns the batched decoder's argmax yields in [n] steps
    from the tokens [toks] and the state [h]. *)
Fixpoint batch_chain (n : nat) (toks : list Z) (h : H) : list (list Z) :=
  match n with
  | O => []
  | S n =>
      let '(out, h) := decoder_batch toks h in
      let g := map argmax out in
      g :: batch_chain n g h
  end.

(** Row [i] of the tensor [predict] fills: the start token, then item
    [i]'s token of every column. *)
Definition predicted_row (bos : Z) (cols : list (list Z)) (i : nat) : list Z :=
  bos :: map (fun col => default 0 (col !! i)) cols.
End BatchChain.

(** The lines that end the session: the four letters of quit, each in
    either case, and nothing else. *)
Definition is_quit (line : string) : bool :=
  match line with
  | String a (String b (String c (String d EmptyString))) =>
      (Ascii.eqb a "q" || Ascii.eqb a "Q") && (Ascii.eqb b "u" || Ascii.eqb b "U")
      && (Ascii.eqb c "i" || Ascii.eqb c "I") && (Ascii.eqb d "t" || Ascii.eqb d "T")
  | _ => false
  end.

(** ** A batched decoder to run the test path on *)
Module Trial.
(** The decoder [Scenario.a_then_eos] on a batch: the same logits for
    every item. *)
Definition batched_a_then_eos (toks : list Z) (step : nat) : list (list Q) * nat :=
  (map (fun _ => Scenario.one_hot (nth step [3; 1] 4)) toks, S step).
End Trial.

(* ================================================================== *)
(** * Theorems *)

(** ** Laws of the exact instance *)

Module ExactLaws.
Import Exact.

Lemma ltb_false (a b : Q) : ltb a b = false <-> (b <= a)%Q.
Proof.
  unfold ltb. rewrite negb_false_iff. apply Qle_bool_iff.
Qed.

Lemma ltb_true (a b : Q) : ltb a b = true <-> (a < b)%Q.
Proof.
  unfold ltb. rewrite negb_true_iff. split.
  - intros Hf. apply Qnot_le_lt. intros Hle.
    apply Qle_bool_iff in Hle. congruence.
  - intros Hlt. destruct (Qle_bool b a) eqn:E; [|reflexivity].
    apply Qle_bool_iff in E. exfalso. eapply Qlt_not_le; eauto.
Qed.

#[global] Instance order : FloatOrder Q.
Proof.
  split; simpl.
  - intros a b Hab. apply ltb_false. apply ltb_true in Hab.
    apply Qlt_le_weak, Hab.
  - intros a b c Hab Hbc. apply ltb_false.
    apply ltb_false in Hab, Hbc. eapply Qle_trans; eauto.
Qed.

#[global] Instance len_penalty : LenPenaltyNonzero Q.
Proof.
  intros n Hn. simpl. rewrite negb_true_iff.
  destruct (Qeq_bool _ _) eqn:E; [|reflexivity].
  apply Qeq_bool_iff in E. exfalso.
  unfold Qdiv, Qeq, Qmult, Qinv, inject_Z in E. simpl in E. lia.
Qed.
End ExactLaws.

(** ** Scoring *)

Section ScoringFacts.
Context {F H : Type} `{FloatOps F}.
Variable self : Config.

(** A tensor of shape [(1, L)] lists as one element, the row: [groupby]
    sees a single group of one element, which is not the int [pad_id]. *)
Lemma repeat_of_tolist2 (row : list Z) : repeat_of (pad_id self) (tolist2 row) = Ok 1.
Proof. reflexivity. Qed.

Lemma get_score_zero (node : Node.t F H) (max_repeat min_length : Z) (alpha : F) :
  truthy (Node.log_prob node) = false ->
  get_score self node max_repeat min_length alpha = Ok (Node.log_prob node).
Proof. intros Hz. unfold get_score. rewrite Hz. reflexivity. Qed.

Lemma get_score_default_returns `{!LenPenaltyNonzero F} (node : Node.t F H) :
  0 <= Node.length node ->
  exists s, get_score_default self node = Ok s.
Proof.
  intros Hlen. unfold get_score_default, get_score.
  destruct (truthy (Node.log_prob node)); simpl; [|eauto].
  rewrite (len_penalty_nonzero _ Hlen). simpl. eauto.
Qed.
End ScoringFacts.

(** On a flat token list the same computation does find the longest run. *)
Example repeat_of_flat_run :
  repeat_of 2 (tolist1 [0; 3; 3; 3; 3; 3; 3]) = Ok 6
  /\ spec_repeat 2 [0; 3; 3; 3; 3; 3; 3] = 6.
Proof. split; reflexivity. Qed.

(** C1: [get_score] at its defaults never applies the repetition penalty.
    For every node with a non-zero [log_prob] (and [length >= 0]) it returns
    [(log_prob / ((length + 5) / 6) ** 1.2) * 1], whatever the runs of
    tokens in [pred]: the run-length it computes is always 1. At
    [pred = [[0, 3, 3, 3, 3, 3, 3]]] with pad id 2 the longest run of equal
    non-pad tokens is 6 > 5, and the factor is still 1, not 0.5. A node
    whose [log_prob] is zero gets it back unchanged. *)
Theorem C1_get_score_never_penalises_repeats
    {F H : Type} `{FloatOps F} `{!LenPenaltyNonzero F} (self : Config) (node : Node.t F H) :
  0 <= Node.length node ->
  (truthy (Node.log_prob node) = false ->
     get_score_default self node = Ok (Node.log_prob node))
  /\ (truthy (Node.log_prob node) = true ->
     repeat_of (pad_id self) (tolist2 (Node.pred node)) = Ok 1
     /\ get_score_default self node =
        Ok (fmul (fdiv (Node.log_prob node)
                       (fpow (int_truediv (Node.length node + 5) 6) f1_2))
                 (of_int 1)))
  /\ spec_repeat 2 [0; 3; 3; 3; 3; 3; 3] = 6.
Proof.
  intros Hlen. split; [|split].
  - intros Hz. apply get_score_zero, Hz.
  - intros Hnz. split; [reflexivity|].
    unfold get_score_default, get_score. rewrite Hnz. simpl.
    rewrite (len_penalty_nonzero _ Hlen). reflexivity.
  - reflexivity.
Qed.

(** The failing input of C1: six 3s in a row, pad id 2, [log_prob] 2. *)
Lemma C1_witness :
  get_score_default (generator_init 0 1 2)
    (Node.mk None [0; 3; 3; 3; 3; 3; 3] (2 # 1)%Q tt 6)
  = Ok (fmul (fdiv (2 # 1)%Q (fpow (int_truediv (6 + 5) 6) f1_2)) (of_int 1)).
Proof.
  apply (C1_get_score_never_penalises_repeats (F := Q) (generator_init 0 1 2)
           (Node.mk None [0; 3; 3; 3; 3; 3; 3] (2 # 1)%Q tt 6)).
  - simpl. lia.
  - reflexivity.
Defined.

(** ** The frontier *)

Section FrontierFacts.
Context {F N : Type} `{FloatOps F}.
Implicit Types (e x : entry F N) (q : list (entry F N)).

Lemma put_replicate e (n : nat) : put e (replicate n e) = replicate (S n) e.
Proof.
  induction n as [|n IH]; simpl; [reflexivity|].
  destruct (flt (fst e) (fst e)); [reflexivity|].
  rewrite IH. reflexivity.
Qed.

(** What the batch loop does from any state of its accumulator. *)
Lemma pop_loop_spec (B : nat) q : forall acc : list (entry F N),
  pop_loop B q acc =
    if decide (length acc < B <= length acc + length q)%nat
    then Ok (acc ++ take (B - length acc) q, drop (B - length acc) q)
    else Blocked.
Proof.
  induction q as [|x q IH]; intros acc; simpl.
  - case_decide; [lia|reflexivity].
  - rewrite length_app. simpl.
    destruct (Nat.eqb_spec (length acc + 1) B) as [Heq|Hne].
    + rewrite decide_True by lia.
      replace (B - length acc)%nat with 1%nat by lia. simpl.
      rewrite take_0, drop_0. reflexivity.
    + rewrite IH. rewrite length_app. simpl.
      case_decide as H1; case_decide as H2; try lia; [|reflexivity].
      replace (B - length acc)%nat with (S (B - (length acc + 1))) by lia.
      simpl. rewrite <- app_assoc. reflexivity.
Qed.

Lemma sorted_reverse_elem_of x (l : list (entry F N)) : x ∈ sorted_reverse l <-> x ∈ l.
Proof.
  assert (Hins : forall e l', x ∈ insert_desc e l' <-> x = e \/ x ∈ l').
  { intros e l'. induction l' as [|y l' IH]; simpl.
    - rewrite list_elem_of_singleton. split; [auto|]. intros [?|Hx]; [done|]. inversion Hx.
    - destruct (flt (fst e) (fst y)); rewrite !elem_of_cons; [rewrite IH|]; tauto. }
  induction l as [|e l IH]; simpl; [done|].
  rewrite Hins, IH, elem_of_cons. tauto.
Qed.

(** The head of the descending sort is an entry none has a higher score than. *)
Lemma sorted_reverse_head `{!FloatOrder F} (l : list (entry F N)) top rest :
  sorted_reverse l = top :: rest ->
  forall y, y ∈ l -> flt (fst top) (fst y) = false.
Proof.
  assert (Hins : forall e l' top' rest',
    (forall top0 rest0, l' = top0 :: rest0 ->
       forall y, y ∈ l' -> flt (fst top0) (fst y) = false) ->
    insert_desc e l' = top' :: rest' ->
    forall y, y = e \/ y ∈ l' -> flt (fst top') (fst y) = false).
  { intros e l' top' rest' Hmax. destruct l' as [|x r]; simpl.
    - intros [= <- <-] y [->|Hy]; [|inversion Hy].
      destruct (flt (fst e) (fst e)) eqn:E; [|reflexivity].
      pose proof (flt_asym _ _ E). congruence.
    - specialize (Hmax x r eq_refl).
      destruct (flt (fst e) (fst x)) eqn:Hlt.
      + intros [= <- <-] y [->|Hy]; [apply flt_asym, Hlt|auto].
      + intros [= <- <-] y [->|Hy].
        * destruct (flt (fst e) (fst e)) eqn:E; [|reflexivity].
          pose proof (flt_asym _ _ E). congruence.
        * eapply flt_negtrans; [exact Hlt|auto]. }
  revert top rest. induction l as [|e l IH]; simpl; [discriminate|].
  intros top rest Hs y Hy. apply elem_of_cons in Hy.
  eapply (Hins e (sorted_reverse l) top rest); [|exact Hs|].
  - intros top0 rest0 Heq y0 Hy0. apply (IH top0 rest0 Heq).
    apply sorted_reverse_elem_of, Hy0.
  - destruct Hy as [->|Hy]; [left; reflexivity|right].
    apply sorted_reverse_elem_of, Hy.
Qed.
End FrontierFacts.




(** ** Initialization *)

Section InitFacts.
Context {F H : Type} `{FloatOps F}.
Variable self : Config.

Lemma seed_replicate (e : entry F (Node.t F H)) (n : nat) : forall (a m : nat),
  foldl (fun nodes _ => put e nodes) (replicate m e) (seq a n) = replicate (m + n) e.
Proof.
  induction n as [|n IH]; intros a m; simpl.
  - rewrite Nat.add_0_r. reflexivity.
  - rewrite put_replicate, IH. f_equal. lia.
Qed.

Lemma init_nodes_eq (hiddens : H) :
  init_nodes self hiddens =
    (replicate (beam_size self) (of_int 0, start_node self hiddens), []).
Proof.
  unfold init_nodes. f_equal.
  apply (seed_replicate (of_int 0, start_node self hiddens) (beam_size self) 0 0).
Qed.
End InitFacts.

(** C6: [init_nodes] builds one root node (no predecessor, the start token
    alone, log-prob 0.0, the initial decoder state, length 0) and returns a
    frontier of exactly [beam_size] entries, each this node under the score
    0, with an empty list of finished entries. *)
Theorem C6_init_nodes_seeds_frontier {F H : Type} `{FloatOps F} (self : Config) (hiddens : H) :
  init_nodes self hiddens =
    (replicate (beam_size self) (of_int 0, start_node self hiddens), [])
  /\ length (fst (init_nodes self hiddens)) = beam_size self
  /\ Node.prev_node (start_node self hiddens) = None
  /\ Node.pred (start_node self hiddens) = [bos_id self]
  /\ Node.log_prob (start_node self hiddens) = fzero
  /\ Node.hiddens (start_node self hiddens) = hiddens
  /\ Node.length (start_node self hiddens) = 0.
Proof.
  rewrite init_nodes_eq. simpl. rewrite length_replicate.
  repeat split; reflexivity.
Qed.

(** ** Greedy search *)

Lemma upto_eos_length (eos : Z) (l : list Z) :
  (length (upto_eos eos l) <= length l)%nat.
Proof.
  induction l as [|x l IH]; simpl; [lia|].
  destruct (x =? eos); simpl; lia.
Qed.

Lemma upto_eos_stop (eos : Z) (l : list Z) :
  length (upto_eos eos l) = length l \/ last (upto_eos eos l) = Some eos.
Proof.
  induction l as [|x l IH]; simpl; [left; reflexivity|].
  destruct (Z.eqb_spec x eos) as [->|Hne]; [right; reflexivity|].
  destruct IH as [IH|IH]; [left; simpl; lia|right].
  destruct (upto_eos eos l); [discriminate|]. exact IH.
Qed.

Lemma upto_eos_before (eos : Z) (l : list Z) (i : nat) :
  (S i < length (upto_eos eos l))%nat -> upto_eos eos l !! i <> Some eos.
Proof.
  revert i. induction l as [|x l IH]; intros i; simpl; [lia|].
  destruct (Z.eqb_spec x eos) as [->|Hne]; simpl; [lia|].
  intros Hi. destruct i as [|i]; simpl; [congruence|]. apply IH. lia.
Qed.

Section GreedyFacts.
Context {F H Text : Type} `{FloatOps F}.
Variable self : Config.
Variable decoder : Z -> H -> list F * H.

Lemma chain_length (n : nat) : forall tok h, length (chain decoder n tok h) = n.
Proof.
  induction n as [|n IH]; intros tok h; simpl; [reflexivity|].
  destruct (decoder tok h) as [out h']. simpl. rewrite IH. reflexivity.
Qed.

(** The loop from step [t] on: the buffer keeps what is before [t], gets
    the emitted tokens from [t] on, and keeps its tail. *)
Lemma greedy_loop_spec (n : nat) : forall (t : nat) tok h (pred : list Z) (calls : nat),
  (t + n <= length pred)%nat ->
  greedy_loop self decoder (seq t n) tok h pred calls =
    (take t pred ++ upto_eos (eos_id self) (chain decoder n tok h)
       ++ drop (t + length (upto_eos (eos_id self) (chain decoder n tok h))) pred,
     (calls + length (upto_eos (eos_id self) (chain decoder n tok h)))%nat).
Proof.
  induction n as [|n IH]; intros t tok h pred calls Hlen; simpl.
  - rewrite Nat.add_0_r, take_drop, Nat.add_0_r. reflexivity.
  - destruct (decoder tok h) as [out h']. simpl.
    destruct (argmax out =? eos_id self) eqn:Heos; simpl.
    + rewrite insert_take_drop by lia.
      rewrite Nat.add_1_r. f_equal. lia.
    + rewrite IH by (rewrite length_insert; lia).
      rewrite (take_S_r _ _ (argmax out)) by (apply list_lookup_insert_eq; lia).
      rewrite take_insert_ge by lia.
      rewrite drop_insert_lt by lia.
      rewrite <- app_assoc. simpl.
      rewrite !Nat.add_succ_r. reflexivity.
Qed.

Lemma greedy_buffer_spec (hiddens : H) :
  (1 <= max_len self)%nat ->
  let emitted :=
    upto_eos (eos_id self) (chain decoder (max_len self - 1) (bos_id self) hiddens) in
  greedy_buffer self decoder hiddens =
    (pad_id self :: emitted
       ++ replicate (max_len self - 1 - length emitted) (pad_id self),
     length emitted).
Proof.
  intros Hmax emitted. unfold greedy_buffer.
  rewrite greedy_loop_spec by (rewrite length_replicate; lia).
  fold emitted. simpl. f_equal.
  rewrite take_replicate, drop_replicate.
  replace (min 1 (max_len self)) with 1%nat by lia. simpl. do 3 f_equal. lia.
Qed.

Lemma greedy_search_item_spec (hiddens : H) :
  (1 <= max_len self)%nat ->
  let emitted :=
    upto_eos (eos_id self) (chain decoder (max_len self - 1) (bos_id self) hiddens) in
  greedy_search_item self decoder hiddens =
    emitted ++ replicate (max_len self - 1 - length emitted) (pad_id self).
Proof.
  intros Hmax emitted. unfold greedy_search_item.
  rewrite greedy_buffer_spec by exact Hmax. reflexivity.
Qed.
End GreedyFacts.

(** C3, as the code has it: for every decoder, the output of
    [greedy_search] for an item is the buffer positions [1, max_len): the
    tokens emitted, then pad. It has length [max_len - 1]. The tokens
    emitted are the decoder's argmax tokens up to and including the first
    end-of-sequence token, so the loop stops at it, or all [max_len - 1] of
    them when there is none; the decoder is called once per emitted token.
    There is no pad token before the first end-of-sequence token provided
    the decoder's argmax itself is never the pad token. *)
Theorem C3_greedy_output {F H : Type} `{FloatOps F}
    (self : Config) (decoder : Z -> H -> list F * H) (hiddens : H) :
  (1 <= max_len self)%nat ->
  let emitted :=
    upto_eos (eos_id self) (chain decoder (max_len self - 1) (bos_id self) hiddens) in
  let out := greedy_search_item self decoder hiddens in
  greedy_buffer self decoder hiddens =
    (pad_id self :: emitted ++ replicate (max_len self - 1 - length emitted) (pad_id self),
     length emitted)
  /\ length (fst (greedy_buffer self decoder hiddens)) = max_len self
  /\ out = drop 1 (fst (greedy_buffer self decoder hiddens))
  /\ out = emitted ++ replicate (max_len self - 1 - length emitted) (pad_id self)
  /\ length out = (max_len self - 1)%nat
  /\ (length emitted = (max_len self - 1)%nat \/ last emitted = Some (eos_id self))
  /\ (forall i, (S i < length emitted)%nat -> emitted !! i <> Some (eos_id self))
  /\ ((forall tok, tok ∈ emitted -> tok <> pad_id self) ->
      no_pad_before_eos (pad_id self) (eos_id self) out).
Proof.
  intros Hmax emitted out.
  pose proof (upto_eos_length (eos_id self)
                (chain decoder (max_len self - 1) (bos_id self) hiddens)) as Hle.
  rewrite chain_length in Hle. fold emitted in Hle.
  assert (Hout : out = emitted ++ replicate (max_len self - 1 - length emitted) (pad_id self)).
  { apply greedy_search_item_spec, Hmax. }
  assert (Hstop : length emitted = (max_len self - 1)%nat \/ last emitted = Some (eos_id self)).
  { destruct (upto_eos_stop (eos_id self)
                (chain decoder (max_len self - 1) (bos_id self) hiddens)) as [Hs|Hs].
    - left. rewrite chain_length in Hs. exact Hs.
    - right. exact Hs. }
  split; [apply greedy_buffer_spec, Hmax|].
  split.
  { rewrite greedy_buffer_spec by exact Hmax. fold emitted. simpl.
    rewrite length_app, length_replicate. lia. }
  split; [reflexivity|].
  split; [exact Hout|].
  split; [rewrite Hout, length_app, length_replicate; lia|].
  split; [exact Hstop|].
  split; [intros i Hi; apply upto_eos_before, Hi|].
  intros Hnopad i j Hij Hj Hfirst.
  assert (Hi : (i < length emitted)%nat).
  { destruct Hstop as [Hfull|Hlast].
    - apply lookup_lt_Some in Hj.
      rewrite Hout, length_app, length_replicate in Hj. lia.
    - destruct (decide (i < length emitted)%nat) as [?|Hge]; [assumption|].
      exfalso. rewrite last_lookup in Hlast.
      destruct emitted as [|e0 em] eqn:Eem; [discriminate|].
      apply (Hfirst (Nat.pred (length (e0 :: em)))); [simpl in *; lia|].
      rewrite Hout. apply lookup_app_l_Some. exact Hlast. }
  rewrite Hout, lookup_app_l by exact Hi.
  intros Hpad. apply (Hnopad (pad_id self)); [|reflexivity].
  eapply list_elem_of_lookup_2, Hpad.
Qed.

(** The decoder that emits a, then eos: the hypothesis holds at 512. *)
Lemma C3_witness :
  length (greedy_search_item Scenario.vocab Scenario.a_then_eos 0%nat) = 511%nat.
Proof.
  apply (C3_greedy_output Scenario.vocab Scenario.a_then_eos 0%nat).
  simpl. lia.
Defined.

(** C3 as stated fails: a decoder whose argmax is the pad token and then the
    end-of-sequence token gives an output with a pad token before the first
    end-of-sequence token. *)
Lemma C3_counterexample :
  ~ no_pad_before_eos 2 1 (greedy_search_item Scenario.vocab Scenario.pad_then_eos 0%nat).
Proof.
  intros Hc. apply (Hc 0%nat 1%nat).
  - lia.
  - vm_compute. reflexivity.
  - intros k Hk. replace k with 0%nat by lia. vm_compute. discriminate.
  - vm_compute. reflexivity.
Qed.

(** C7: over the vocabulary bos=0, eos=1, pad=2, a=3, b=4 and with
    [max_len = 512], if the decoder's argmax is a at the first step and eos
    at the second, the buffer of [max_len] positions holds a and eos at
    positions 1 and 2 and pad everywhere else, the output (the buffer
    without its position 0) is [a, eos] followed by pad only, the decoder was
    called twice, and the non-pad prefix of the output is exactly [3, 1]. *)
Theorem C7_greedy_a_then_eos {F H : Type} `{FloatOps F}
    (decoder : Z -> H -> list F * H) (h0 h1 h2 : H) (out1 out2 : list F) :
  decoder 0 h0 = (out1, h1) -> argmax out1 = 3 ->
  decoder 3 h1 = (out2, h2) -> argmax out2 = 1 ->
  greedy_buffer (generator_init 0 1 2) decoder h0 = (2 :: 3 :: 1 :: replicate 509 2, 2%nat)
  /\ length (fst (greedy_buffer (generator_init 0 1 2) decoder h0)) = 512%nat
  /\ greedy_search_item (generator_init 0 1 2) decoder h0 = [3; 1] ++ replicate 509 2
  /\ non_pad_prefix 2 (greedy_search_item (generator_init 0 1 2) decoder h0) = [3; 1].
Proof.
  intros Hd1 Ha1 Hd2 Ha2.
  assert (Hem : upto_eos 1 (chain decoder 511 0 h0) = [3; 1]).
  { change 511%nat with (S (S 509)).
    cbn [chain]. rewrite Hd1. cbn [chain]. rewrite Ha1, Hd2, Ha2. reflexivity. }
  assert (Hbuf : greedy_buffer (generator_init 0 1 2) decoder h0
                 = (2 :: 3 :: 1 :: replicate 509 2, 2%nat)).
  { rewrite greedy_buffer_spec by (simpl; lia).
    change (max_len (generator_init 0 1 2) - 1)%nat with 511%nat.
    change (eos_id (generator_init 0 1 2)) with 1.
    change (bos_id (generator_init 0 1 2)) with 0.
    change (pad_id (generator_init 0 1 2)) with 2.
    rewrite Hem. reflexivity. }
  unfold greedy_search_item. rewrite Hbuf.
  repeat split; reflexivity.
Qed.

(** The scripted decoder of the scenario satisfies the hypotheses. *)
Lemma C7_witness :
  greedy_search_item Scenario.vocab Scenario.a_then_eos 0%nat = [3; 1] ++ replicate 509 2.
Proof.
  apply (C7_greedy_a_then_eos Scenario.a_then_eos 0%nat 1%nat 2%nat
           (Scenario.one_hot 3) (Scenario.one_hot 1)); reflexivity.
Defined.

(** ** The interactive loop *)

(** C8: the line that lowers to "quit" ends the session after the farewell
    line. Any other first line is handed to [generate] with one argument
    where the method takes two: the call raises [TypeError], nothing is
    decoded and no labelled line is printed. *)
Theorem C8_inference_first_line (line : string) (rest : list string) :
  inference (line :: rest) =
    if String.eqb (lower line) "quit"
    then (["--- Inference Process Started! ---"%string;
           ("[ Type " ++ dquote ++ "quit" ++ dquote
              ++ " on user input to stop the Process ]")%string;
           prompt; farewell], Ok tt)
    else (["--- Inference Process Started! ---"%string;
           ("[ Type " ++ dquote ++ "quit" ++ dquote
              ++ " on user input to stop the Process ]")%string;
           prompt], Raised TypeError).
Proof.
  unfold inference. simpl.
  destruct (String.eqb (lower line) "quit"); reflexivity.
Qed.

(** Called as its signature asks, [generate] still raises. *)
Lemma generate_never_returns (args : list string) :
  generate args = Raised TypeError \/ generate args = Raised UnboundLocalError.
Proof.
  destruct args as [|a [|b [|c args]]]; simpl; auto.
Qed.

Example inference_hello :
  inference ["Hello"%string; "QUIT"%string]
  = (["--- Inference Process Started! ---"%string;
      ("[ Type " ++ dquote ++ "quit" ++ dquote
         ++ " on user input to stop the Process ]")%string;
      prompt], Raised TypeError).
Proof. reflexivity. Qed.

Example inference_quit :
  snd (inference ["QuIt"%string; "Hello"%string]) = Ok tt.
Proof. reflexivity. Qed.

(** ** The batch test path *)

Section TesterFacts.
Context {F H : Type} `{FloatOps F}.
Variables (task : string) (t_bos_id t_pad_id : Z) (t_max_len : nat).
Variable encoder : list (list Z) -> H.
Variable decoder_batch : list Z -> H -> list (list F) * H.
Variable metric_compute : list string -> list (list string) -> string -> F.

#[local] Abbreviation row_ok := (row_ok t_bos_id t_max_len).

Lemma row_ok_insert (t : nat) (tok : Z) (row : list Z) :
  (1 <= t)%nat -> row_ok row -> row_ok (<[t := tok]> row).
Proof.
  intros Ht [Hlen Hhd]. split.
  - rewrite length_insert. exact Hlen.
  - rewrite list_lookup_insert_ne by lia. exact Hhd.
Qed.

Lemma set_column_ok (t : nat) (pred_token : list Z) (pred : list (list Z)) :
  (1 <= t)%nat -> length pred_token = length pred -> Forall row_ok pred ->
  exists pred', set_column t pred_token pred = Ok pred'
                /\ length pred' = length pred /\ Forall row_ok pred'.
Proof.
  intros Ht Hlen Hrows. unfold set_column.
  rewrite Hlen, Nat.eqb_refl. eexists. split; [reflexivity|]. split.
  - apply length_zip_with_l_eq. symmetry. exact Hlen.
  - clear Hlen. revert pred_token.
    induction Hrows as [|row pred Hrow Hrows IH]; intros [|tok toks]; simpl;
      try constructor; auto using row_ok_insert.
Qed.

Lemma predict_loop_ok (ts : list nat) :
  (forall toks h, length (fst (decoder_batch toks h)) = length toks) ->
  Forall (fun t => (1 <= t)%nat) ts ->
  forall pred_token hiddens pred calls,
    length pred_token = length pred -> Forall row_ok pred ->
    exists pred', predict_loop decoder_batch ts pred_token hiddens pred calls
                    = Ok (pred', (calls + length ts)%nat)
                  /\ length pred' = length pred /\ Forall row_ok pred'.
Proof.
  intros Hdec Hts. induction Hts as [|t ts Ht Hts IH];
    intros pred_token hiddens pred calls Hlen Hrows; simpl.
  - exists pred. rewrite Nat.add_0_r. auto.
  - pose proof (Hdec pred_token hiddens) as Hout.
    destruct (decoder_batch pred_token hiddens) as [out hiddens']. simpl in Hout.
    destruct (set_column_ok t (map argmax out) pred Ht) as (pred1 & Hset & Hlen1 & Hrows1);
      [rewrite length_map; congruence|exact Hrows|].
    rewrite Hset. simpl.
    destruct (IH (map argmax out) hiddens' pred1 (S calls)) as (pred' & Hloop & Hlen' & Hrows');
      [rewrite length_map; congruence|exact Hrows1|].
    exists pred'. rewrite Hloop. split; [f_equal; f_equal; lia|].
    split; [congruence|exact Hrows'].
Qed.
End TesterFacts.



Example predict_always_eos :
  predict 0 2 4 (fun _ => 0%nat) Scenario.batch_always_eos [[5; 6]; [7; 8]]
  = Ok ([[0; 1; 1; 1]; [0; 1; 1; 1]], 3%nat).
Proof. vm_compute. reflexivity. Qed.

(** C9: when every prediction of the batch is the empty string, [evaluate]
    returns 0.0 and the metric module is not called; when some prediction is
    not empty, the metric module is called, once, on the predictions and the
    references, and the score is the value under the task's key times 100. *)
Theorem C9_evaluate_empty_predictions {F : Type} `{FloatOps F}
    (task : string) (metric_compute : list string -> list (list string) -> string -> F)
    (pred label : list string) :
  (Forall (fun elem => elem = EmptyString) pred ->
     evaluate task metric_compute pred label = (fzero, []))
  /\ ((exists elem, elem ∈ pred /\ elem <> EmptyString) ->
      snd (evaluate task metric_compute pred label)
        = [(pred, map (fun l => [l]) label)]
      /\ fst (evaluate task metric_compute pred label)
        = fmul (metric_compute pred (map (fun l => [l]) label)
                  (if String.eqb task "translation" then "bleu" else "rouge2")%string)
               (of_int 100)).
Proof.
  unfold evaluate. split.
  - intros Hall.
    assert (Hb : forallb (fun elem => String.eqb elem EmptyString) pred = true).
    { induction Hall as [|elem pred -> _ IH]; simpl; [reflexivity|exact IH]. }
    rewrite Hb. reflexivity.
  - intros (elem & Hin & Hne).
    assert (Hb : forallb (fun elem => String.eqb elem EmptyString) pred = false).
    { induction pred as [|p pred IH]; [inversion Hin|]. simpl.
      apply elem_of_cons in Hin as [<-|Hin].
      - destruct (String.eqb_spec elem EmptyString); [contradiction|reflexivity].
      - rewrite (IH Hin). apply andb_false_r. }
    rewrite Hb. destruct (String.eqb task "translation"); split; reflexivity.
Qed.

(** ** Beam search *)

(** C2: [beam_search] reaches neither its step loop nor the choice of a
    hypothesis that follows it. For every item the call
    [self.get_nodes(hiddens)] that opens the search raises
    [AttributeError]: the class defines [init_nodes] and no [get_nodes].
    So does the search of every batch of at least one item, whatever the
    decoder, the beam size and [max_len]: no token sequence is returned. *)
Theorem C2_beam_search_raises_before_selection {F H Text : Type} `{FloatOps F}
    (self : Config) (decoder : Z -> H -> list F * H)
    (tokenizer_decode : list (list Z) -> Text) (hiddens : H) (rest : list H) :
  beam_search_item self decoder hiddens = Raised AttributeError
  /\ beam_search self decoder tokenizer_decode (hiddens :: rest) = Raised AttributeError.
Proof.
  split; reflexivity.
Qed.

(** C4: with a beam of one, and with any other, [beam_search] returns no
    path to set beside the greedy one: it raises [AttributeError] at
    [self.get_nodes] for every item. For the decoder that answers a and
    then eos, [greedy_search] returns a, eos and pad up to 511 tokens,
    and [beam_search] with a beam of one raises. *)
Theorem C4_beam_one_raises_where_greedy_returns {F H : Type} `{FloatOps F}
    (self : Config) (decoder : Z -> H -> list F * H) (hiddens : H) :
  beam_search_item self decoder hiddens = Raised AttributeError
  /\ beam_size Scenario.beam1 = 1%nat
  /\ beam_search_item Scenario.beam1 Scenario.a_then_eos 0%nat = Raised AttributeError
  /\ greedy_search_item Scenario.beam1 Scenario.a_then_eos 0%nat
       = [3; 1] ++ replicate 509 2.
Proof.
  split; [reflexivity|]. split; [reflexivity|]. split; [reflexivity|].
  vm_compute. reflexivity.
Qed.

(* ================================================================== *)
(** * Further properties of the code *)

(** ** The choice among finished hypotheses *)

Section SelectFacts.
Context {F N : Type} `{FloatOps F}.

(** The head of the descending sort stands in the list after entries of
    strictly lower score only. *)
Lemma sorted_reverse_first (l : list (entry F N)) : forall top rest,
  sorted_reverse l = top :: rest ->
  exists l1 l2, l = l1 ++ top :: l2
                /\ forall y, y ∈ l1 -> flt (fst y) (fst top) = true.
Proof.
  induction l as [|e l IH]; intros top rest Hs; simpl in Hs; [discriminate|].
  destruct (sorted_reverse l) as [|top' rest'] eqn:Hl; simpl in Hs.
  - inversion Hs; subst. exists [], l. split; [reflexivity|].
    intros y Hy. inversion Hy.
  - destruct (flt (fst e) (fst top')) eqn:Hlt.
    + inversion Hs; subst top' rest.
      destruct (IH top rest' eq_refl) as (l1 & l2 & -> & Hlow).
      exists (e :: l1), l2. split; [reflexivity|].
      intros y Hy. apply elem_of_cons in Hy as [->|Hy]; auto.
    + inversion Hs; subst. exists [], l. split; [reflexivity|].
      intros y Hy. inversion Hy.
Qed.
End SelectFacts.

(** X3: when some hypothesis has finished, the choice of the top node
    returns without touching the frontier, and it takes the first finished
    hypothesis of maximal score: those finished before it have a strictly
    lower score, those finished after it none higher. *)
Theorem select_top_first_of_maximal_score {F H : Type} `{FloatOps F} `{!FloatOrder F}
    (nodes end_nodes : list (entry F (Node.t F H))) :
  end_nodes <> [] ->
  exists top_score top_node before after,
    select_top nodes end_nodes = Ok top_node
    /\ end_nodes = before ++ (top_score, top_node) :: after
    /\ (forall e, e ∈ before -> flt (fst e) top_score = true)
    /\ (forall e, e ∈ after -> flt top_score (fst e) = false).
Proof.
  intros Hne. unfold select_top.
  destruct end_nodes as [|e0 ends]; [congruence|]. cbn [length Nat.eqb]. unfold index.
  destruct (sorted_reverse (e0 :: ends)) as [|[top_score top_node] rest] eqn:Hsort.
  - exfalso. assert (Hin : e0 ∈ sorted_reverse (e0 :: ends)).
    { apply sorted_reverse_elem_of, list_elem_of_here. }
    rewrite Hsort in Hin. inversion Hin.
  - destruct (sorted_reverse_first _ _ _ Hsort) as (before & after & Heq & Hlow).
    exists top_score, top_node, before, after. simpl.
    split; [reflexivity|]. split; [exact Heq|]. split; [exact Hlow|].
    intros e He. apply (sorted_reverse_head _ _ _ Hsort e).
    rewrite Heq. apply elem_of_app. right. apply list_elem_of_further, He.
Qed.

(** Two finished hypotheses of equal score: the one finished first is taken. *)
Lemma select_top_first_of_maximal_score_witness :
  select_top (F := Q) (H := nat) []
    [((1 # 2)%Q, Node.mk None [0; 3; 1] (1 # 2)%Q 1%nat 2);
     ((3 # 4)%Q, Node.mk None [0; 4; 1] (3 # 4)%Q 2%nat 2);
     ((3 # 4)%Q, Node.mk None [0; 1] (3 # 4)%Q 3%nat 1)]
  = Ok (Node.mk None [0; 4; 1] (3 # 4)%Q 2%nat 2).
Proof.
  destruct (select_top_first_of_maximal_score (F := Q) (H := nat) []
              [((1 # 2)%Q, Node.mk None [0; 3; 1] (1 # 2)%Q 1%nat 2);
               ((3 # 4)%Q, Node.mk None [0; 4; 1] (3 # 4)%Q 2%nat 2);
               ((3 # 4)%Q, Node.mk None [0; 1] (3 # 4)%Q 3%nat 1)])
    as (s & top & before & after & Hsel & _); [discriminate|].
  rewrite Hsel. vm_compute in Hsel. inversion Hsel. reflexivity.
Defined.

(** ** What [predict] writes *)

Section PredictRows.
Context {F H : Type} `{FloatOps F}.
Variables (t_bos_id t_pad_id : Z) (t_max_len : nat).
Variable encoder : list (list Z) -> H.
Variable decoder_batch : list Z -> H -> list (list F) * H.
Hypothesis decoder_rows : forall toks h, length (fst (decoder_batch toks h)) = length toks.

(** Writing a column into rows given by their index. *)
Lemma set_column_rows (t b : nat) (rows : nat -> list Z) (pred_token : list Z) :
  length pred_token = b ->
  set_column t pred_token (map rows (seq 0 b))
  = Ok (map (fun i => <[t := default 0 (pred_token !! i)]> (rows i)) (seq 0 b)).
Proof.
  intros Hlen. unfold set_column.
  rewrite length_map, length_seq, Hlen, Nat.eqb_refl. f_equal.
  apply list_eq. intros i.
  rewrite lookup_zip_with, !list_lookup_fmap.
  destruct (decide (i < b)%nat) as [Hi|Hi].
  - rewrite lookup_seq_lt by exact Hi. simpl.
    destruct (lookup_lt_is_Some_2 pred_token i) as [tok Htok]; [lia|].
    rewrite Htok. reflexivity.
  - rewrite lookup_seq_ge by lia. reflexivity.
Qed.

(** The loop from step [t] on, on rows given by their index: row [i] keeps
    what is before [t], gets item [i]'s token of every column, and keeps
    what is left of its tail. *)
Lemma predict_loop_rows (b n : nat) : forall (t : nat) pred_token hiddens
    (rows : nat -> list Z) (calls : nat),
  length pred_token = b ->
  (forall i, (i < b)%nat -> (t + n <= length (rows i))%nat) ->
  predict_loop decoder_batch (seq t n) pred_token hiddens (map rows (seq 0 b)) calls
  = Ok (map (fun i =>
               take t (rows i)
                 ++ map (fun col => default 0 (col !! i))
                        (batch_chain decoder_batch n pred_token hiddens)
                 ++ drop (t + n) (rows i))
            (seq 0 b),
        (calls + n)%nat).
Proof.
  induction n as [|n IH]; intros t pred_token hiddens rows calls Hlen Hrows.
  - cbn [seq predict_loop batch_chain map]. rewrite !Nat.add_0_r. do 2 f_equal.
    apply map_ext. intros i. cbn [app]. rewrite take_drop. reflexivity.
  - cbn [seq predict_loop batch_chain].
    pose proof (decoder_rows pred_token hiddens) as Hout.
    destruct (decoder_batch pred_token hiddens) as [out hiddens']. cbn [fst] in Hout.
    rewrite (set_column_rows t b rows (map argmax out))
      by (rewrite length_map; congruence).
    cbn [mbind outcome_bind].
    rewrite (IH (S t) (map argmax out) hiddens'
               (fun i => <[t := default 0 (map argmax out !! i)]> (rows i)) (S calls));
      [|rewrite length_map; congruence
       |intros i Hi; rewrite length_insert; specialize (Hrows i Hi); lia].
    f_equal. f_equal; [|lia].
    apply map_ext_in. intros i Hi. apply in_seq in Hi.
    assert (Ht : (t < length (rows i))%nat) by (specialize (Hrows i); lia).
    rewrite (take_S_r _ _ (default 0 (map argmax out !! i)))
      by (apply list_lookup_insert_eq; exact Ht).
    rewrite take_insert_ge by lia.
    rewrite drop_insert_lt by lia.
    rewrite <- app_assoc. cbn [map app].
    replace (S t + n)%nat with (t + S n)%nat by lia. reflexivity.
Qed.

Lemma predict_rows (x : list (list Z)) :
  (1 <= t_max_len)%nat ->
  predict t_bos_id t_pad_id t_max_len encoder decoder_batch x
  = Ok (map (predicted_row t_bos_id
               (batch_chain decoder_batch (t_max_len - 1)
                  (replicate (length x) t_bos_id) (encoder x)))
            (seq 0 (length x)),
        (t_max_len - 1)%nat).
Proof.
  intros Hmax. unfold predict.
  destruct (Nat.eqb_spec t_max_len 0) as [?|_]; [lia|]. cbn [mbind outcome_bind].
  assert (Hgen : forall (row0 : list Z) (b a : nat),
            map (fun row : list Z => <[0%nat := t_bos_id]> row) (replicate b row0)
            = map (fun _ : nat => <[0%nat := t_bos_id]> row0) (seq a b)).
  { intros row0 b. induction b as [|b IHb]; intros a; [reflexivity|].
    simpl. f_equal. apply IHb. }
  rewrite (Hgen _ _ 0%nat).
  rewrite (predict_loop_rows (length x) (t_max_len - 1) 1);
    [|apply length_replicate
     |intros i _; rewrite length_insert, length_replicate; lia].
  f_equal. f_equal. apply map_ext. intros i. unfold predicted_row.
  destruct t_max_len as [|m]; [lia|].
  cbn [replicate]. cbn [insert list_insert take].
  rewrite take_0.
  replace (1 + (S m - 1))%nat with (S m) by lia.
  rewrite drop_ge by (simpl; rewrite length_replicate; lia).
  rewrite app_nil_r. reflexivity.
Qed.
End PredictRows.

(** X8: with a decoder that returns a row of logits per item and
    [max_len >= 1], row [i] of the tensor [predict] returns is the start
    token followed by the tokens the decoder's argmax gave item [i] at the
    [max_len - 1] steps, each step fed the tokens of the step before. Every
    position of the buffer is overwritten: the result is the same for any
    pad id. *)
Theorem predict_rows_are_decoder_tokens {F H : Type} `{FloatOps F}
    (t_bos_id t_pad_id : Z) (t_max_len : nat)
    (encoder : list (list Z) -> H) (decoder_batch : list Z -> H -> list (list F) * H)
    (x : list (list Z)) :
  (1 <= t_max_len)%nat ->
  (forall toks h, length (fst (decoder_batch toks h)) = length toks) ->
  predict t_bos_id t_pad_id t_max_len encoder decoder_batch x
    = Ok (map (predicted_row t_bos_id
                 (batch_chain decoder_batch (t_max_len - 1)
                    (replicate (length x) t_bos_id) (encoder x)))
              (seq 0 (length x)),
          (t_max_len - 1)%nat)
  /\ forall other_pad_id,
       predict t_bos_id other_pad_id t_max_len encoder decoder_batch x
       = predict t_bos_id t_pad_id t_max_len encoder decoder_batch x.
Proof.
  intros Hmax Hdec. split.
  - apply predict_rows; assumption.
  - intros other. rewrite !predict_rows by assumption. reflexivity.
Qed.

(** Two items, [max_len = 4], the batched decoder that always answers eos. *)
Lemma predict_rows_are_decoder_tokens_witness :
  predict 0 2 4 (fun _ => 0%nat) Scenario.batch_always_eos [[5; 6]; [7; 8]]
  = predict 0 9 4 (fun _ => 0%nat) Scenario.batch_always_eos [[5; 6]; [7; 8]].
Proof.
  symmetry.
  apply (predict_rows_are_decoder_tokens 0 2 4 (fun _ => 0%nat)
           Scenario.batch_always_eos [[5; 6]; [7; 8]]).
  - lia.
  - intros toks h. simpl. rewrite length_map. reflexivity.
Defined.

(** ** The test run *)

Section TestRunFacts.
Context {F H : Type} `{FloatOps F}.
Variables (task model_type : string) (t_bos_id t_pad_id : Z) (t_max_len : nat).
Variable encoder : list (list Z) -> H.
Variable decoder_batch : list Z -> H -> list (list F) * H.
Variable metric_compute : list string -> list (list string) -> string -> F.
Variable tokenizer_decode_ids : list Z -> string.
Variable str_upper : string -> string.
Variable format_round2 : F -> string.

(** The calls [evaluate] makes: none, or one on predictions not all empty. *)
Lemma evaluate_calls (pred label : list string) :
  snd (evaluate task metric_compute pred label) = []
  \/ (snd (evaluate task metric_compute pred label) = [(pred, map (fun l => [l]) label)]
      /\ exists elem, elem ∈ pred /\ elem <> EmptyString).
Proof.
  unfold evaluate.
  destruct (forallb (fun elem => String.eqb elem EmptyString) pred) eqn:Hall;
    [left; reflexivity|right].
  split; [destruct (String.eqb task "translation"); reflexivity|].
  clear -Hall. induction pred as [|p pred IH]; [discriminate|].
  simpl in Hall. destruct (String.eqb_spec p EmptyString) as [->|Hne].
  - destruct (IH Hall) as (elem & Hin & He). exists elem.
    split; [apply list_elem_of_further, Hin|exact He].
  - exists p. split; [apply list_elem_of_here|exact Hne].
Qed.

Lemma test_loop_returns (dataloader : list Batch) :
  (1 <= t_max_len)%nat ->
  (forall toks h, length (fst (decoder_batch toks h)) = length toks) ->
  forall score calls,
  exists score' calls',
    test_loop task t_bos_id t_pad_id t_max_len encoder decoder_batch metric_compute
      tokenizer_decode_ids dataloader score calls = Ok (score', calls ++ calls')
    /\ (length calls' <= length dataloader)%nat
    /\ Forall (call_of tokenizer_decode_ids dataloader) calls'.
Proof.
  intros Hmax Hdec.
  induction dataloader as [|batch dataloader IH]; intros score calls.
  - exists score, []. rewrite app_nil_r. simpl. split; [reflexivity|]. split; [lia|constructor].
  - cbn [test_loop]. rewrite (predict_rows _ _ _ _ _ Hdec _ Hmax). cbn [mbind outcome_bind].
    set (pred := tokenize tokenizer_decode_ids _).
    set (y := tokenize tokenizer_decode_ids (batch_y batch)).
    pose proof (evaluate_calls pred y) as Hcalls.
    destruct (evaluate task metric_compute pred y) as [batch_score batch_calls].
    cbn [snd] in Hcalls.
    destruct (IH (fadd score batch_score) (calls ++ batch_calls))
      as (score' & calls' & Hloop & Hlen & Hall).
    exists score', (batch_calls ++ calls'). rewrite Hloop, <- app_assoc.
    split; [reflexivity|].
    assert (Hweak : Forall (call_of tokenizer_decode_ids (batch :: dataloader)) calls').
    { eapply Forall_impl; [exact Hall|]. intros c ((b0 & Hb0 & Hrefs) & Hne).
      split; [|exact Hne]. exists b0. split; [apply list_elem_of_further, Hb0|exact Hrefs]. }
    destruct Hcalls as [->|[-> Hne]].
    + split; [simpl; lia|exact Hweak].
    + split; [simpl; lia|]. constructor; [|exact Hweak].
      split; [|exact Hne]. exists batch. split; [apply list_elem_of_here|reflexivity].
Qed.
End TestRunFacts.



(** X9: with [max_len >= 1] and a decoder that returns a row of logits per
    item, [test] raises [ZeroDivisionError] exactly when the data loader has
    no batch: the accumulated score is divided by the number of batches. *)
Theorem test_raises_iff_no_batch {F H : Type} `{FloatOps F}
    (task model_type : string) (t_bos_id t_pad_id : Z) (t_max_len : nat)
    (encoder : list (list Z) -> H) (decoder_batch : list Z -> H -> list (list F) * H)
    (metric_compute : list string -> list (list string) -> string -> F)
    (tokenizer_decode_ids : list Z -> string)
    (str_upper : string -> string) (format_round2 : F -> string)
    (dataloader : list Batch) :
  (1 <= t_max_len)%nat ->
  (forall toks h, length (fst (decoder_batch toks h)) = length toks) ->
  (test task model_type t_bos_id t_pad_id t_max_len encoder decoder_batch metric_compute
        tokenizer_decode_ids str_upper format_round2 dataloader
   = Raised ZeroDivisionError
   <-> dataloader = [])
  /\ forall e,
       test task model_type t_bos_id t_pad_id t_max_len encoder decoder_batch metric_compute
            tokenizer_decode_ids str_upper format_round2 dataloader
       = Raised e -> e = ZeroDivisionError.
Proof.
  intros Hmax Hdec.
  destruct (test_loop_returns task t_bos_id t_pad_id t_max_len encoder decoder_batch
              metric_compute tokenizer_decode_ids dataloader Hmax Hdec fzero [])
    as (score & calls & Hloop & _).
  simpl in Hloop. unfold test. rewrite Hloop. cbn [mbind outcome_bind].
  destruct dataloader as [|b dl]; cbn [length Nat.eqb].
  - split; [split; reflexivity|]. intros e [= <-]. reflexivity.
  - split; [split; discriminate|]. discriminate.
Qed.

Lemma test_raises_iff_no_batch_witness :
  test (F := Q) "translation" "lstm" 0 2 4 (fun _ => 0%nat) Scenario.batch_always_eos
       (fun _ _ _ => 0%Q) (fun _ => "x"%string) (fun s => s) (fun _ => "0.0"%string) []
  = Raised ZeroDivisionError.
Proof.
  apply (test_raises_iff_no_batch (F := Q) "translation" "lstm" 0 2 4 (fun _ => 0%nat)
           Scenario.batch_always_eos (fun _ _ _ => 0%Q) (fun _ => "x"%string) (fun s => s)
           (fun _ => "0.0"%string) []).
  - lia.
  - intros toks h. simpl. rewrite length_map. reflexivity.
  - reflexivity.
Defined.

(** ** The test path against greedy search *)

Section OneItem.
Context {F H : Type} `{FloatOps F}.
Variable decoder : Z -> H -> list F * H.
Variable decoder_batch : list Z -> H -> list (list F) * H.
(** On a batch of one item the batched decoder is the decoder. *)
Hypothesis decoder_one : forall tok h,
  decoder_batch [tok] h = ([fst (decoder tok h)], snd (decoder tok h)).

Lemma batch_chain_one (n : nat) : forall tok h,
  batch_chain decoder_batch n [tok] h = map (fun g => [g]) (chain decoder n tok h).
Proof.
  induction n as [|n IH]; intros tok h; [reflexivity|].
  cbn [batch_chain chain]. rewrite decoder_one.
  destruct (decoder tok h) as [out h']. cbn [fst snd map].
  rewrite IH. reflexivity.
Qed.

Lemma predicted_row_one (bos : Z) (c : list Z) :
  predicted_row bos (map (fun g => [g]) c) 0 = bos :: c.
Proof.
  unfold predicted_row. f_equal. rewrite map_map. simpl. apply map_id.
Qed.
End OneItem.

(** X12: on a batch of one item, [Tester.predict] and
    [Generator.greedy_search] follow the same tokens. The row [predict]
    returns is the start token and the decoder's [max_len - 1] argmax
    tokens; the output of [greedy_search] for the item is that row without
    its start token, cut after its first end-of-sequence token and filled up
    with pad. *)
Theorem predict_row_agrees_with_greedy {F H : Type} `{FloatOps F}
    (self : Config) (t_pad_id : Z)
    (encoder : list (list Z) -> H) (decoder : Z -> H -> list F * H)
    (decoder_batch : list Z -> H -> list (list F) * H) (x : list Z) :
  (1 <= max_len self)%nat ->
  (forall toks h, length (fst (decoder_batch toks h)) = length toks) ->
  (forall tok h, decoder_batch [tok] h = ([fst (decoder tok h)], snd (decoder tok h))) ->
  exists row,
    predict (bos_id self) t_pad_id (max_len self) encoder decoder_batch [x]
      = Ok ([row], (max_len self - 1)%nat)
    /\ row = bos_id self :: chain decoder (max_len self - 1) (bos_id self) (encoder [x])
    /\ greedy_search_item self decoder (encoder [x])
       = upto_eos (eos_id self) (drop 1 row)
           ++ replicate (max_len self - 1 - length (upto_eos (eos_id self) (drop 1 row)))
                (pad_id self).
Proof.
  intros Hmax Hrows Hone.
  exists (bos_id self :: chain decoder (max_len self - 1) (bos_id self) (encoder [x])).
  split; [|split; [reflexivity|]].
  - rewrite (predict_rows _ _ _ _ _ Hrows _ Hmax). cbn [length replicate seq map].
    rewrite (batch_chain_one decoder decoder_batch Hone), predicted_row_one. reflexivity.
  - cbn [drop]. apply greedy_search_item_spec, Hmax.
Qed.

Lemma predict_row_agrees_with_greedy_witness :
  predict 0 2 512 (fun _ => 0%nat) Trial.batched_a_then_eos [[7; 8; 9]]
  = Ok ([0 :: chain Scenario.a_then_eos 511 0 0%nat], 511%nat).
Proof.
  destruct (predict_row_agrees_with_greedy Scenario.vocab 2 (fun _ => 0%nat)
              Scenario.a_then_eos Trial.batched_a_then_eos [7; 8; 9])
    as (row & Hp & -> & _).
  - simpl. lia.
  - intros toks h. simpl. apply length_map.
  - intros tok h. reflexivity.
  - exact Hp.
Defined.

(** ** The sentinel of the interactive loop *)

Lemma lower_ascii_q (c : ascii) :
  Ascii.eqb (lower_ascii c) "q" = Ascii.eqb c "q" || Ascii.eqb c "Q".
Proof. destruct c as [[] [] [] [] [] [] [] []]; reflexivity. Qed.

Lemma lower_ascii_u (c : ascii) :
  Ascii.eqb (lower_ascii c) "u" = Ascii.eqb c "u" || Ascii.eqb c "U".
Proof. destruct c as [[] [] [] [] [] [] [] []]; reflexivity. Qed.

Lemma lower_ascii_i (c : ascii) :
  Ascii.eqb (lower_ascii c) "i" = Ascii.eqb c "i" || Ascii.eqb c "I".
Proof. destruct c as [[] [] [] [] [] [] [] []]; reflexivity. Qed.

Lemma lower_ascii_t (c : ascii) :
  Ascii.eqb (lower_ascii c) "t" = Ascii.eqb c "t" || Ascii.eqb c "T".
Proof. destruct c as [[] [] [] [] [] [] [] []]; reflexivity. Qed.

Lemma lower_is_quit (line : string) : String.eqb (lower line) "quit" = is_quit line.
Proof.
  destruct line as [|a [|b [|c [|d [|e r]]]]]; cbn [lower String.eqb is_quit];
    rewrite ?lower_ascii_q, ?lower_ascii_u, ?lower_ascii_i, ?lower_ascii_t;
    repeat match goal with
           | |- context [Ascii.eqb ?x ?y] => destruct (Ascii.eqb x y)
           end;
    reflexivity.
Qed.

(** X13: the session ends normally exactly on a first line that spells
    quit in any mix of upper and lower case, with nothing before or after
    it: the line is lowered, not trimmed. On any other first line it ends
    with an exception. *)
Theorem inference_ends_iff_quit (line : string) (rest : list string) :
  (snd (inference (line :: rest)) = Ok tt <-> is_quit line = true)
  /\ (is_quit line = false -> snd (inference (line :: rest)) = Raised TypeError).
Proof.
  unfold inference. cbn [inference_loop]. rewrite lower_is_quit.
  destruct (is_quit line); cbn [generate snd]; split; try split;
    try reflexivity; try discriminate; auto.
Qed.

Example inference_quit_with_space :
  snd (inference ["quit "%string]) = Raised TypeError
  /\ snd (inference ["qUIt"%string]) = Ok tt.
Proof. split; reflexivity. Qed.
